(** * The IP allow-list gate of the Remix root loader

    A shallow embedding of the [loader] functions of [app/root.tsx] and of
    the two other variants of that file kept in the repository, with the
    few pieces of JavaScript they rely on: string values, truthiness and
    [||], optional chaining, [String.prototype.split] and [trim],
    [Headers.get], and the [json] response helper; then of the effects of
    the document shell: the inline theme script, the effect of [Layout]
    and the log call of [App]. *)

From Stdlib Require Import NArith Ascii.
From stdpp Require Import gmap strings list.

Open Scope N_scope.

(** ** JavaScript strings *)

(** A JavaScript string is a sequence of UTF-16 code units. *)
Abbreviation jsstring := (list N).

Fixpoint js (s : string) : jsstring :=
  match s with
  | EmptyString => []
  | String a s' => N_of_ascii a :: js s'
  end.

(** [a === b] on two strings. *)
Definition strict_eq (a b : jsstring) : bool := bool_decide (a = b).

(** ECMAScript [WhiteSpace] and [LineTerminator] code points, the ones
    [String.prototype.trim] strips. *)
Definition is_white_space (c : N) : bool :=
  (c =? 0x09) || (c =? 0x0A) || (c =? 0x0B) || (c =? 0x0C) || (c =? 0x0D)
  || (c =? 0x20) || (c =? 0xA0) || (c =? 0x1680)
  || ((0x2000 <=? c) && (c <=? 0x200A))
  || (c =? 0x2028) || (c =? 0x2029) || (c =? 0x202F) || (c =? 0x205F)
  || (c =? 0x3000) || (c =? 0xFEFF).

Fixpoint trimStart (s : jsstring) : jsstring :=
  match s with
  | [] => []
  | c :: s' => if is_white_space c then trimStart s' else s
  end.

Definition trimEnd (s : jsstring) : jsstring := reverse (trimStart (reverse s)).

Definition trim (s : jsstring) : jsstring := trimEnd (trimStart s).

(** [s.split(sep)] for a separator of one code unit: the pieces between
    the separators, in order; [''.split(',')] is [['']]. *)
Fixpoint split (sep : N) (s : jsstring) : list jsstring :=
  match s with
  | [] => [[]]
  | c :: s' =>
      if c =? sep then [] :: split sep s'
      else match split sep s' with
           | [] => [[c]]
           | piece :: pieces => (c :: piece) :: pieces
           end
  end.

Definition comma : N := 0x2C.

(** ** Nullable values, truthiness and [||] *)

(** A value of type [string | null | undefined]; [None] stands for the two
    nullish values, which the code never tells apart. *)
Abbreviation nullable := (option jsstring).

Definition truthy (v : nullable) : bool :=
  match v with
  | Some (_ :: _) => true
  | _ => false
  end.

(** [a || b]: [a] when it is truthy, [b] otherwise. *)
Definition or_else (a b : nullable) : nullable := if truthy a then a else b.

(** [a || 'literal']: the right operand is a non-empty string, so the
    result is a string. *)
Definition or_literal (a : nullable) (d : jsstring) : jsstring :=
  match a with
  | Some (c :: s) => c :: s
  | _ => d
  end.

(** ** Completions: normal results and exceptions *)

Inductive jvalue :=
  | JBool (b : bool)
  | JString (s : jsstring).

Record Response := mkResponse {
  status : N;
  body : list (string * jvalue)
}.

Inductive exn :=
  | TypeError
  | Thrown (r : Response).

Inductive completion (A : Type) :=
  | Normal (a : A)
  | Abrupt (e : exn).
Arguments Normal {A} a.
Arguments Abrupt {A} e.

Definition cbind {A B} (m : completion A) (k : A -> completion B) : completion B :=
  match m with
  | Normal a => k a
  | Abrupt e => Abrupt e
  end.

Notation "'let*' x ':=' m 'in' k" := (cbind m (fun x => k))
  (at level 10, x name, m at level 100, k at level 200, only parsing).

(** [v?.split(',')[0].trim()]: the chain stops at [undefined] when [v] is
    nullish; otherwise element 0 of the split is read, and calling [trim]
    on [undefined] would throw a [TypeError]. *)
Definition first_entry_trimmed (v : nullable) : completion nullable :=
  match v with
  | None => Normal None
  | Some s =>
      match split comma s !! 0%nat with
      | Some e => Normal (Some (trim e))
      | None => Abrupt TypeError
      end
  end.

(** [v?.split(',')[0]]: plain indexing yields [undefined] out of range and
    does not throw. *)
Definition first_entry (v : nullable) : nullable :=
  match v with
  | None => None
  | Some s => split comma s !! 0%nat
  end.

(** ** Requests, configuration and responses *)

(** A request, as far as a loader can see it. The headers are a map from
    lower-case names to values: [Headers.get] looks a name up and yields
    [null] when the header is absent. *)
Record Request := mkRequest {
  method : jsstring;
  url : jsstring;
  headers : gmap string jsstring
}.

Definition get (h : gmap string jsstring) (name : string) : nullable := h !! name.

Record Env := mkEnv {
  ALLOWED_IP : nullable
}.

Record Context := mkContext {
  env : Env
}.

(** [json(data, init)]: a response with the given body and status;
    [json(data)] has status 200. *)
Definition json (data : list (string * jvalue)) (init : option N) : Response :=
  {| status := default 200 init; body := data |}.

Definition access_denied : jsstring := js "Access denied: Unauthorized IP address".
Definition loopback : jsstring := js "127.0.0.1".
Definition localhost : jsstring := js "localhost".

(** The two outcomes of the gate, read off a loader's completion: a 200
    response returned is an allow, a 403 response (returned or thrown) is a
    denial. *)
Inductive AccessDecision := Allowed | Denied.

Definition decision (c : completion Response) : option AccessDecision :=
  match c with
  | Normal r =>
      if status r =? 200 then Some Allowed
      else if status r =? 403 then Some Denied else None
  | Abrupt (Thrown r) => if status r =? 403 then Some Denied else None
  | Abrupt TypeError => None
  end.

(** ** [app/root.tsx] *)

Module Root.

Definition isAllowedIp (requestIp allowedIp : jsstring) : bool :=
  if strict_eq requestIp loopback || strict_eq requestIp localhost then true
  else strict_eq requestIp allowedIp.

Definition requestIp (request : Request) : completion jsstring :=
  let forwardedFor :=
    or_else (get (headers request) "cf-connecting-ip")
            (get (headers request) "x-forwarded-for") in
  let* first := first_entry_trimmed forwardedFor in
  Normal (or_literal (or_else first (get (headers request) "x-real-ip")) loopback).

Definition loader (request : Request) (context : Context) : completion Response :=
  let* requestIp := requestIp request in
  let allowedIp := ALLOWED_IP (env context) in
  if truthy allowedIp && negb (isAllowedIp requestIp (default [] allowedIp)) then
    Abrupt (Thrown (json [("error", JString access_denied);
                          ("requestIp", JString requestIp);
                          ("allowedIp", JString (default [] allowedIp))]
                         (Some 403)))
  else
    Normal (json [("ok", JBool true); ("ip", JString requestIp)] None).

End Root.

(** ** The variant with a hard-coded address ([unnamed/part_000]) *)

Module Part000.

Definition isAllowedIp (requestIp : jsstring) : bool :=
  let allowedIp := js "89.76.169.41" in
  strict_eq requestIp allowedIp.

Definition requestIp (request : Request) : completion jsstring :=
  let forwardedFor :=
    or_else (get (headers request) "cf-connecting-ip")
            (get (headers request) "x-forwarded-for") in
  let* first := first_entry_trimmed forwardedFor in
  Normal (or_literal (or_else first (get (headers request) "x-real-ip")) loopback).

Definition loader (request : Request) (context : Context) : completion Response :=
  let* requestIp := requestIp request in
  if negb (isAllowedIp requestIp) then
    Normal (json [("error", JString access_denied);
                  ("requestIp", JString requestIp)]
                 (Some 403))
  else
    Normal (json [("ok", JBool true); ("ip", JString requestIp)] None).

End Part000.

(** ** The variant without the edge header ([unnamed/part_001]) *)

Module Part001.

Definition ip (request : Request) : jsstring :=
  or_literal
    (or_else (first_entry (get (headers request) "x-forwarded-for"))
             (get (headers request) "x-real-ip"))
    loopback.

Definition loader (request : Request) (context : Context) : completion Response :=
  let ip := ip request in
  let allowedIp := or_literal (ALLOWED_IP (env context)) loopback in
  if negb (strict_eq ip allowedIp) && negb (strict_eq ip loopback) then
    Abrupt (Thrown (json [("error", JString access_denied)] (Some 403)))
  else
    Normal (json [("ok", JBool true)] None).

End Part001.

(** ** Building requests and contexts from literals *)

Definition request_of (l : list (string * string)) : Request :=
  {| method := js "GET"; url := js "/";
     headers := list_to_map (prod_map id js <$> l) |}.

Definition context_of (allowed : option string) : Context :=
  {| env := {| ALLOWED_IP := js <$> allowed |} |}.

(** [set_header name v request]: the same request with header [name]
    set to [v], or removed when [v] is [None]. *)
Definition set_header (name : string) (v : nullable) (request : Request) : Request :=
  {| method := method request; url := url request;
     headers := match v with
                | Some s => <[name := s]> (headers request)
                | None => delete name (headers request)
                end |}.

(** ** The document shell: theme attribute and initialization log *)

(** What the inline theme script and the layout effect see of the
    browser: the local storage, whether the media query
    [(prefers-color-scheme: dark)] matches, and the attributes of the
    element [document.querySelector('html')] finds ([None] when it finds
    none). *)
Record Browser := mkBrowser {
  localStorage : gmap string jsstring;
  prefers_dark : bool;
  html : option (gmap string jsstring)
}.

Definition getItem (storage : gmap string jsstring) (key : string) : nullable :=
  storage !! key.

(** [document.querySelector('html')?.setAttribute(name, value)]. *)
Definition setAttribute (name : string) (value : jsstring) (b : Browser) : Browser :=
  {| localStorage := localStorage b;
     prefers_dark := prefers_dark b;
     html := insert name value <$> html b |}.

(** The function of [inlineThemeCode], the same in the three variants. *)
Definition setTutorialKitTheme (b : Browser) : Browser :=
  let theme := getItem (localStorage b) "bolt_theme" in
  let theme :=
    if negb (truthy theme) then
      if prefers_dark b then js "dark" else js "light"
    else default [] theme in
  setAttribute "data-theme" theme b.

(** The effect of [Layout], run with the theme of the theme store. *)
Definition Layout_effect (theme : jsstring) (b : Browser) : Browser :=
  setAttribute "data-theme" theme b.

Record Navigator := mkNavigator {
  platform : jsstring;
  userAgent : jsstring
}.

(** [data.ip] and the like: the property of that name, [undefined]
    ([None]) when the object has none. *)
Fixpoint prop (name : string) (data : list (string * jvalue)) : option jvalue :=
  match data with
  | [] => None
  | (k, v) :: data' => if bool_decide (k = name) then Some v else prop name data'
  end.

(** The effect of [App] in [root.tsx] and [part_000]: the call
    [logStore.logSystem(message, details)] it makes, given the theme of
    the store, the navigator, the text of [new Date().toISOString()] and
    the loader data. *)
Definition App_effect (theme : jsstring) (navigator : Navigator) (now : jsstring)
    (data : list (string * jvalue)) : jsstring * list (string * option jvalue) :=
  (js "Application initialized",
   [("theme", Some (JString theme));
    ("platform", Some (JString (platform navigator)));
    ("userAgent", Some (JString (userAgent navigator)));
    ("timestamp", Some (JString now));
    ("clientIp", prop "ip" data)]).

(** * Properties *)

(** ** [split], [trim] and truthiness *)

Lemma split_cons sep s : exists e rest, split sep s = e :: rest.
Proof.
  destruct s as [|c s]; simpl; [by eauto|].
  destruct (c =? sep); [by eauto|].
  destruct (split sep s); eauto.
Qed.

(** The first piece holds no separator and is what precedes the first
    separator of the string, or the whole string when there is none. *)
Lemma split_first sep s :
  exists e rest, split sep s = e :: rest /\ (sep ∉ e) /\
    (s = e \/ exists t, s = e ++ sep :: t).
Proof.
  induction s as [|c s IH]; simpl.
  - exists [], []. split_and!; [done|apply not_elem_of_nil|by left].
  - destruct (N.eqb_spec c sep) as [->|Hne].
    + exists [], (split sep s).
      split_and!; [done|apply not_elem_of_nil|right; by exists s].
    + destruct IH as (e & rest & -> & Hnotin & Hs).
      exists (c :: e), rest. split_and!; [done| |].
      * apply not_elem_of_cons. split; [congruence|done].
      * destruct Hs as [->|[t ->]]; [by left|right; by exists t].
Qed.

Lemma split_no_sep sep s : sep ∉ s -> split sep s = [s].
Proof.
  induction s as [|c s IH]; simpl; [done|].
  intros Hnotin. apply not_elem_of_cons in Hnotin as [Hne Hnotin].
  destruct (N.eqb_spec c sep) as [->|_]; [done|].
  by rewrite IH.
Qed.

Lemma trimStart_spec s :
  exists l, s = l ++ trimStart s /\ Forall (fun c => is_white_space c = true) l /\
    (forall c, head (trimStart s) = Some c -> is_white_space c = false).
Proof.
  induction s as [|c s (l & Hs & Hl & Hhd)]; simpl.
  - exists []. by split_and!.
  - destruct (is_white_space c) eqn:Hc.
    + exists (c :: l). split_and!; [simpl; by rewrite <- Hs|by constructor|done].
    + exists []. split_and!; [done|done|]. simpl. by intros ? [= <-].
Qed.

Lemma trimStart_id s :
  (forall c, head s = Some c -> is_white_space c = false) -> trimStart s = s.
Proof.
  destruct s as [|c s]; simpl; [done|]. intros H. by rewrite (H c).
Qed.

Lemma trimStart_keeps_last s c :
  last (trimStart s) = Some c -> last s = Some c.
Proof.
  destruct (trimStart_spec s) as (l & Hs & _ & _). intros H.
  rewrite Hs, last_app, H. done.
Qed.

(** [trim] removes a run of white space at each end and nothing else, and
    what remains neither starts nor ends with white space. *)
Lemma trim_spec s :
  exists l r, s = l ++ trim s ++ r /\
    Forall (fun c => is_white_space c = true) l /\
    Forall (fun c => is_white_space c = true) r /\
    (forall c, head (trim s) = Some c -> is_white_space c = false) /\
    (forall c, last (trim s) = Some c -> is_white_space c = false).
Proof.
  unfold trim, trimEnd.
  destruct (trimStart_spec s) as (l & Hs & Hl & Hhd).
  destruct (trimStart_spec (reverse (trimStart s))) as (r & Ht & Hr & Hlast).
  exists l, (reverse r). split_and!.
  - rewrite <- reverse_app, <- Ht, reverse_involutive. exact Hs.
  - exact Hl.
  - by apply Forall_reverse.
  - intros c Hc. rewrite head_reverse in Hc.
    apply trimStart_keeps_last in Hc. rewrite last_reverse in Hc. by apply Hhd.
  - intros c Hc. rewrite last_reverse in Hc. by apply Hlast.
Qed.

Lemma trim_id s :
  (forall c, head s = Some c -> is_white_space c = false) ->
  (forall c, last s = Some c -> is_white_space c = false) ->
  trim s = s.
Proof.
  intros Hhd Hlast. unfold trim, trimEnd.
  rewrite (trimStart_id s Hhd), trimStart_id; [apply reverse_involutive|].
  intros c. rewrite head_reverse. apply Hlast.
Qed.

Lemma truthy_Some s : truthy (Some s) = true <-> s <> [].
Proof. destruct s; simpl; split; congruence. Qed.

Lemma truthy_false v : truthy v = false <-> v = None \/ v = Some [].
Proof.
  destruct v as [[|c s]|]; simpl; split; try tauto; try congruence.
  intros [|]; congruence.
Qed.

Lemma or_else_truthy s b : s <> [] -> or_else (Some s) b = Some s.
Proof. by destruct s. Qed.

Lemma or_else_falsy a b : truthy a = false -> or_else a b = b.
Proof. unfold or_else. by intros ->. Qed.

Lemma or_literal_truthy s d : s <> [] -> or_literal (Some s) d = s.
Proof. by destruct s. Qed.

Lemma or_literal_falsy v d : truthy v = false -> or_literal v d = d.
Proof. by destruct v as [[|c s]|]. Qed.

Lemma or_literal_nonempty v d : d <> [] -> or_literal v d <> [].
Proof. by destruct v as [[|c s]|]. Qed.

Lemma strict_eq_true a b : strict_eq a b = true <-> a = b.
Proof. apply bool_decide_eq_true. Qed.

Lemma strict_eq_false a b : strict_eq a b = false <-> a <> b.
Proof. apply bool_decide_eq_false. Qed.

Lemma strict_eq_refl a : strict_eq a a = true.
Proof. by apply strict_eq_true. Qed.

(** ** Address resolution *)

(** The optional chain of [root.tsx] never throws: [split] always yields
    at least one piece. *)
Lemma first_entry_trimmed_total v :
  first_entry_trimmed v = Normal (trim <$> first_entry v).
Proof.
  destruct v as [s|]; simpl; [|done].
  destruct (split_cons comma s) as (e & rest & ->). done.
Qed.

Lemma first_entry_Some s : exists e rest,
  split comma s = e :: rest /\ first_entry (Some s) = Some e.
Proof.
  destruct (split_cons comma s) as (e & rest & H).
  exists e, rest. simpl. by rewrite H.
Qed.

(** Resolution in [root.tsx] always completes normally, with the value of
    the [||] chain; [part_000] has the same text. *)
Lemma Root_requestIp_total request :
  Root.requestIp request =
  Normal (or_literal
            (or_else (trim <$> first_entry
                        (or_else (get (headers request) "cf-connecting-ip")
                                 (get (headers request) "x-forwarded-for")))
                     (get (headers request) "x-real-ip"))
            loopback).
Proof. unfold Root.requestIp. by rewrite first_entry_trimmed_total. Qed.

Lemma Part000_requestIp_total request :
  Part000.requestIp request =
  Normal (or_literal
            (or_else (trim <$> first_entry
                        (or_else (get (headers request) "cf-connecting-ip")
                                 (get (headers request) "x-forwarded-for")))
                     (get (headers request) "x-real-ip"))
            loopback).
Proof. unfold Part000.requestIp. by rewrite first_entry_trimmed_total. Qed.

Lemma Root_requestIp_nonempty request ip : Root.requestIp request = Normal ip -> ip <> [].
Proof.
  rewrite Root_requestIp_total. intros [= <-]. by apply or_literal_nonempty.
Qed.

Lemma get_set_header_eq name v request :
  get (headers (set_header name v request)) name = v.
Proof.
  unfold get, set_header. destruct v; simpl.
  - apply lookup_insert_eq.
  - apply lookup_delete_eq.
Qed.

Lemma get_set_header_ne name name' v request :
  name <> name' ->
  get (headers (set_header name v request)) name' = get (headers request) name'.
Proof.
  intros Hne. unfold get, set_header. destruct v; simpl.
  - by apply lookup_insert_ne.
  - by apply lookup_delete_ne.
Qed.

(** ** The loaders, once the address is known *)

Lemma Root_loader_resolved request context ip :
  Root.requestIp request = Normal ip ->
  Root.loader request context =
  let allowedIp := ALLOWED_IP (env context) in
  if truthy allowedIp && negb (Root.isAllowedIp ip (default [] allowedIp)) then
    Abrupt (Thrown (json [("error", JString access_denied);
                          ("requestIp", JString ip);
                          ("allowedIp", JString (default [] allowedIp))]
                         (Some 403)))
  else Normal (json [("ok", JBool true); ("ip", JString ip)] None).
Proof. intros H. unfold Root.loader. by rewrite H. Qed.

Lemma Part000_loader_resolved request context ip :
  Part000.requestIp request = Normal ip ->
  Part000.loader request context =
  if negb (Part000.isAllowedIp ip) then
    Normal (json [("error", JString access_denied); ("requestIp", JString ip)] (Some 403))
  else Normal (json [("ok", JBool true); ("ip", JString ip)] None).
Proof. intros H. unfold Part000.loader. by rewrite H. Qed.

Lemma Root_isAllowedIp_spec ip allowedIp :
  Root.isAllowedIp ip allowedIp = true <->
  ip = loopback \/ ip = localhost \/ ip = allowedIp.
Proof.
  unfold Root.isAllowedIp.
  destruct (strict_eq ip loopback) eqn:E1; simpl.
  { apply strict_eq_true in E1. tauto. }
  destruct (strict_eq ip localhost) eqn:E2; simpl.
  { apply strict_eq_true in E2. tauto. }
  apply strict_eq_false in E1, E2. rewrite strict_eq_true. tauto.
Qed.

Lemma Root_isAllowedIp_false ip allowedIp :
  Root.isAllowedIp ip allowedIp = false <->
  ip <> loopback /\ ip <> localhost /\ ip <> allowedIp.
Proof.
  rewrite <- not_true_iff_false, Root_isAllowedIp_spec.
  destruct (decide (ip = loopback)), (decide (ip = localhost)),
    (decide (ip = allowedIp)); tauto.
Qed.

Lemma Part000_isAllowedIp_spec ip :
  Part000.isAllowedIp ip = true <-> ip = js "89.76.169.41".
Proof. apply strict_eq_true. Qed.

Lemma Part001_loader_allowed request context :
  Part001.ip request = or_literal (ALLOWED_IP (env context)) loopback \/
  Part001.ip request = loopback ->
  Part001.loader request context = Normal (json [("ok", JBool true)] None).
Proof.
  intros H. unfold Part001.loader.
  destruct H as [H|H].
  - apply strict_eq_true in H. by rewrite H.
  - apply strict_eq_true in H. rewrite H. by rewrite andb_false_r.
Qed.

Lemma Part001_loader_denied request context :
  Part001.ip request <> or_literal (ALLOWED_IP (env context)) loopback ->
  Part001.ip request <> loopback ->
  Part001.loader request context =
  Abrupt (Thrown (json [("error", JString access_denied)] (Some 403))).
Proof.
  intros H1 H2. unfold Part001.loader.
  apply strict_eq_false in H1, H2. by rewrite H1, H2.
Qed.

(** ** The access decision *)

(** C1, as stated, fails on [part_001]: with no allow-list configured and
    [x-forwarded-for: 203.0.113.9] that loader throws the 403 response. *)
Lemma unconfigured_part001_denies :
  truthy (ALLOWED_IP (env (context_of None))) = false /\
  Part001.loader (request_of [("x-forwarded-for", "203.0.113.9")]) (context_of None)
  = Abrupt (Thrown (json [("error", JString access_denied)] (Some 403))) /\
  decision (Part001.loader (request_of [("x-forwarded-for", "203.0.113.9")])
              (context_of None)) = Some Denied.
Proof. by vm_compute. Qed.

(** C1 (amended): when no allow-list value is configured ([ALLOWED_IP]
    absent or empty), the loader of [root.tsx] allows every request and
    returns the success payload with the resolved address; the loader of
    [part_001] then falls back to the allow-list [127.0.0.1], so it allows
    exactly the requests whose resolved address is [127.0.0.1] and denies
    every other one. *)
Theorem unconfigured_allow_list request context :
  truthy (ALLOWED_IP (env context)) = false ->
  (exists ip, Root.requestIp request = Normal ip /\
     Root.loader request context =
     Normal (json [("ok", JBool true); ("ip", JString ip)] None)) /\
  decision (Root.loader request context) = Some Allowed /\
  (decision (Part001.loader request context) = Some Allowed <->
   Part001.ip request = loopback) /\
  (decision (Part001.loader request context) = Some Denied <->
   Part001.ip request <> loopback).
Proof.
  intros Hunset.
  pose proof (Root_requestIp_total request) as Hip.
  rewrite (Root_loader_resolved _ _ _ Hip). cbv zeta. rewrite Hunset. simpl.
  split; [eexists; split; [exact Hip|done]|].
  split; [done|].
  destruct (decide (Part001.ip request = loopback)) as [Heq|Hne].
  - rewrite Part001_loader_allowed by (by right). simpl. split; split; done.
  - rewrite Part001_loader_denied;
      [|by rewrite (or_literal_falsy _ loopback Hunset)|done].
    simpl. split; split; done.
Qed.

Lemma unconfigured_allow_list_witness :
  decision (Root.loader (request_of [("x-forwarded-for", "203.0.113.9")])
              (context_of None)) = Some Allowed.
Proof.
  apply (unconfigured_allow_list
           (request_of [("x-forwarded-for", "203.0.113.9")]) (context_of None)).
  reflexivity.
Defined.

(** C2, as stated, fails on [part_000]: with no address header the
    resolved address is [127.0.0.1], and the loader answers 403. *)
Lemma loopback_part000_denied :
  Part000.requestIp (request_of []) = Normal loopback /\
  Part000.loader (request_of []) (context_of (Some "89.76.169.41"))
  = Normal (json [("error", JString access_denied); ("requestIp", JString loopback)]
                 (Some 403)) /\
  decision (Part000.loader (request_of []) (context_of (Some "89.76.169.41")))
  = Some Denied.
Proof. by vm_compute. Qed.

(** C2 (amended): in [root.tsx] and in [part_001] a request whose
    resolved address is [127.0.0.1] is allowed whatever the configured
    allow-list value is; in [part_000], which compares with the hard-coded
    address only, such a request gets the 403 response. *)
Theorem loopback_bypass request context :
  (Root.requestIp request = Normal loopback ->
   Root.loader request context =
   Normal (json [("ok", JBool true); ("ip", JString loopback)] None)) /\
  (Part001.ip request = loopback ->
   Part001.loader request context = Normal (json [("ok", JBool true)] None)) /\
  (Part000.requestIp request = Normal loopback ->
   Part000.loader request context =
   Normal (json [("error", JString access_denied); ("requestIp", JString loopback)]
                (Some 403))).
Proof.
  split_and!.
  - intros Hip. rewrite (Root_loader_resolved _ _ _ Hip). cbv zeta.
    assert (Root.isAllowedIp loopback (default [] (ALLOWED_IP (env context))) = true)
      as -> by (apply Root_isAllowedIp_spec; by left).
    by rewrite andb_false_r.
  - intros Hip. apply Part001_loader_allowed. by right.
  - intros Hip. by rewrite (Part000_loader_resolved _ _ _ Hip).
Qed.

Lemma loopback_bypass_witness :
  Root.loader (request_of []) (context_of (Some "89.76.169.41")) =
  Normal (json [("ok", JBool true); ("ip", JString loopback)] None) /\
  Part001.loader (request_of []) (context_of (Some "89.76.169.41")) =
  Normal (json [("ok", JBool true)] None) /\
  Part000.loader (request_of []) (context_of (Some "89.76.169.41")) =
  Normal (json [("error", JString access_denied); ("requestIp", JString loopback)]
               (Some 403)).
Proof.
  destruct (loopback_bypass (request_of []) (context_of (Some "89.76.169.41")))
    as (HRoot & H001 & H000).
  split_and!; [apply HRoot|apply H001|apply H000]; reflexivity.
Defined.

(** C3, as stated, fails on [root.tsx]: the resolved address [localhost]
    differs from the configured value and from [127.0.0.1], and the
    request is allowed. *)
Lemma localhost_not_denied :
  Root.requestIp (request_of [("x-forwarded-for", "localhost")]) = Normal localhost /\
  localhost <> js "89.76.169.41" /\ localhost <> loopback /\
  Root.loader (request_of [("x-forwarded-for", "localhost")])
    (context_of (Some "89.76.169.41"))
  = Normal (json [("ok", JBool true); ("ip", JString localhost)] None).
Proof. by vm_compute. Qed.

(** C3 (amended): with a configured, non-empty allow-list value, a
    request whose resolved address differs from that value, from
    [127.0.0.1] and, in [root.tsx], from [localhost] is denied: the loader
    throws a response of status 403 whose [error] field is the fixed
    message "Access denied: Unauthorized IP address" ([root.tsx] adds the
    two addresses, [part_001] nothing). *)
Theorem mismatch_denied request context allowedIp :
  ALLOWED_IP (env context) = Some allowedIp -> allowedIp <> [] ->
  (forall ip, Root.requestIp request = Normal ip ->
     ip <> allowedIp -> ip <> loopback -> ip <> localhost ->
     Root.loader request context =
     Abrupt (Thrown {| status := 403;
                       body := [("error", JString access_denied);
                                ("requestIp", JString ip);
                                ("allowedIp", JString allowedIp)] |})) /\
  (Part001.ip request <> allowedIp -> Part001.ip request <> loopback ->
   Part001.loader request context =
   Abrupt (Thrown {| status := 403;
                     body := [("error", JString access_denied)] |})).
Proof.
  intros Hcfg Hne. split.
  - intros ip Hip H1 H2 H3.
    rewrite (Root_loader_resolved _ _ _ Hip). cbv zeta. rewrite Hcfg.
    assert (truthy (Some allowedIp) = true) as -> by (by apply truthy_Some).
    assert (Root.isAllowedIp ip (default [] (Some allowedIp)) = false) as ->
      by (by apply Root_isAllowedIp_false).
    done.
  - intros H1 H2. rewrite Part001_loader_denied; [done| |done].
    rewrite Hcfg. by rewrite or_literal_truthy.
Qed.

Lemma mismatch_denied_witness :
  Root.loader (request_of [("x-forwarded-for", "1.2.3.4, 5.6.7.8")])
    (context_of (Some "89.76.169.41")) =
  Abrupt (Thrown {| status := 403;
                    body := [("error", JString access_denied);
                             ("requestIp", JString (js "1.2.3.4"));
                             ("allowedIp", JString (js "89.76.169.41"))] |}) /\
  Part001.loader (request_of [("x-forwarded-for", "1.2.3.4, 5.6.7.8")])
    (context_of (Some "89.76.169.41")) =
  Abrupt (Thrown {| status := 403; body := [("error", JString access_denied)] |}).
Proof.
  destruct (mismatch_denied (request_of [("x-forwarded-for", "1.2.3.4, 5.6.7.8")])
              (context_of (Some "89.76.169.41")) (js "89.76.169.41"))
    as [HRoot H001]; [reflexivity|discriminate|].
  split.
  - apply (HRoot (js "1.2.3.4")); [reflexivity|discriminate..].
  - apply H001; vm_compute; discriminate.
Defined.

(** C4: a request whose resolved address is equal to the allow-list value
    (the configured one in [root.tsx], the hard-coded one in [part_000])
    is allowed, and the success payload carries that address. The
    comparison is equality of strings, code unit by code unit: besides the
    fixed bypass values of [root.tsx], [isAllowedIp] accepts an address
    only when it is the allow-list value itself. *)
Theorem exact_match_allowed request context allowedIp :
  (ALLOWED_IP (env context) = Some allowedIp ->
   Root.requestIp request = Normal allowedIp ->
   Root.loader request context =
   Normal (json [("ok", JBool true); ("ip", JString allowedIp)] None)) /\
  (Part000.requestIp request = Normal (js "89.76.169.41") ->
   Part000.loader request context =
   Normal (json [("ok", JBool true); ("ip", JString (js "89.76.169.41"))] None)) /\
  (forall ip, ip <> loopback -> ip <> localhost ->
     (Root.isAllowedIp ip allowedIp = true <-> ip = allowedIp)) /\
  (forall ip, Part000.isAllowedIp ip = true <-> ip = js "89.76.169.41").
Proof.
  split_and!.
  - intros Hcfg Hip. rewrite (Root_loader_resolved _ _ _ Hip). cbv zeta.
    rewrite Hcfg.
    assert (Root.isAllowedIp allowedIp (default [] (Some allowedIp)) = true) as ->
      by (apply Root_isAllowedIp_spec; by right; right).
    by rewrite andb_false_r.
  - intros Hip. by rewrite (Part000_loader_resolved _ _ _ Hip).
  - intros ip H1 H2. rewrite Root_isAllowedIp_spec. tauto.
  - apply Part000_isAllowedIp_spec.
Qed.

Lemma exact_match_allowed_witness :
  Root.loader (request_of [("cf-connecting-ip", "89.76.169.41")])
    (context_of (Some "89.76.169.41")) =
  Normal (json [("ok", JBool true); ("ip", JString (js "89.76.169.41"))] None) /\
  Part000.loader (request_of [("cf-connecting-ip", "89.76.169.41")])
    (context_of None) =
  Normal (json [("ok", JBool true); ("ip", JString (js "89.76.169.41"))] None) /\
  (Root.isAllowedIp (js "2001:DB8::1") (js "2001:db8::1") = true <->
   js "2001:DB8::1" = js "2001:db8::1").
Proof.
  destruct (exact_match_allowed (request_of [("cf-connecting-ip", "89.76.169.41")])
              (context_of (Some "89.76.169.41")) (js "89.76.169.41"))
    as (HRoot & _ & _ & _).
  destruct (exact_match_allowed (request_of [("cf-connecting-ip", "89.76.169.41")])
              (context_of None) (js "2001:db8::1"))
    as (_ & H000 & Hexact & _).
  split_and!.
  - apply HRoot; reflexivity.
  - apply H000; reflexivity.
  - apply Hexact; discriminate.
Defined.

(** Neither letter case nor an address range is looked through. *)
Example match_is_case_sensitive :
  Root.loader (request_of [("x-forwarded-for", "2001:DB8::1")])
    (context_of (Some "2001:db8::1")) =
  Abrupt (Thrown (json [("error", JString access_denied);
                        ("requestIp", JString (js "2001:DB8::1"));
                        ("allowedIp", JString (js "2001:db8::1"))] (Some 403))).
Proof. by vm_compute. Qed.

Example match_knows_no_cidr :
  decision (Root.loader (request_of [("x-forwarded-for", "10.1.2.3")])
              (context_of (Some "10.0.0.0/8"))) = Some Denied.
Proof. by vm_compute. Qed.

(** ** Address resolution, header by header *)

(** C5, as stated, fails: in [root.tsx] the value of [cf-connecting-ip]
    goes through [split(',')[0].trim()] like the forwarded-for chain, so
    the resolved address is not the header's value when that holds a
    comma; and [part_001] does not read the header, so there
    [x-forwarded-for] wins. *)
Lemma edge_header_not_taken_whole :
  Root.requestIp (request_of [("cf-connecting-ip", "1.1.1.1,3.3.3.3");
                              ("x-forwarded-for", "2.2.2.2")])
  = Normal (js "1.1.1.1") /\
  js "1.1.1.1" <> js "1.1.1.1,3.3.3.3" /\
  Part001.ip (request_of [("cf-connecting-ip", "1.1.1.1");
                          ("x-forwarded-for", "2.2.2.2")])
  = js "2.2.2.2".
Proof. by vm_compute. Qed.

(** C5 (amended): in [root.tsx], when [cf-connecting-ip] is present and
    non-empty, [x-forwarded-for] is not consulted, and the resolved
    address is the first comma-separated entry of the [cf-connecting-ip]
    value, trimmed, when that entry is non-empty (else [x-real-ip], else
    [127.0.0.1]); it is the header's value itself when the value holds no
    comma and no white space at its ends. [part_001] never reads
    [cf-connecting-ip]. *)
Theorem edge_header_precedence request c :
  get (headers request) "cf-connecting-ip" = Some c -> c <> [] ->
  (forall v, Root.requestIp (set_header "x-forwarded-for" v request)
             = Root.requestIp request) /\
  (exists e rest, split comma c = e :: rest /\
     Root.requestIp request =
     Normal (or_literal (or_else (Some (trim e))
                                 (get (headers request) "x-real-ip")) loopback)) /\
  (comma ∉ c -> trim c = c -> Root.requestIp request = Normal c) /\
  (forall v, Part001.ip (set_header "cf-connecting-ip" v request)
             = Part001.ip request).
Proof.
  intros Hcf Hne.
  assert (Hcf' : or_else (get (headers request) "cf-connecting-ip")
                   (get (headers request) "x-forwarded-for") = Some c).
  { rewrite Hcf. by apply or_else_truthy. }
  split_and!.
  - intros v. rewrite !Root_requestIp_total.
    rewrite (get_set_header_ne _ "cf-connecting-ip") by done.
    rewrite (get_set_header_ne _ "x-real-ip") by done.
    rewrite Hcf. by rewrite !(or_else_truthy c).
  - destruct (first_entry_Some c) as (e & rest & Hsplit & Hfirst).
    exists e, rest. split; [done|].
    rewrite Root_requestIp_total, Hcf', Hfirst. done.
  - intros Hnocomma Htrim.
    rewrite Root_requestIp_total, Hcf'. simpl.
    rewrite (split_no_sep _ _ Hnocomma). simpl. rewrite Htrim.
    rewrite or_else_truthy by done. by rewrite or_literal_truthy.
  - intros v. unfold Part001.ip. by rewrite !get_set_header_ne.
Qed.

Lemma edge_header_precedence_witness :
  Root.requestIp (request_of [("cf-connecting-ip", "1.1.1.1");
                              ("x-forwarded-for", "2.2.2.2")])
  = Normal (js "1.1.1.1").
Proof.
  destruct (edge_header_precedence
              (request_of [("cf-connecting-ip", "1.1.1.1");
                           ("x-forwarded-for", "2.2.2.2")])
              (js "1.1.1.1")) as (_ & _ & Hwhole & _);
    [reflexivity|discriminate|].
  apply Hwhole; [|reflexivity].
  vm_compute. intros H. repeat (apply elem_of_cons in H as [H|H]; [discriminate|]).
  by apply elem_of_nil in H.
Defined.

(** C6, as stated, fails: in [root.tsx] a non-empty [cf-connecting-ip]
    hides the forwarded-for chain altogether, and [part_001] takes the
    first entry without trimming it. *)
Lemma forwarded_chain_not_always_first_trimmed :
  Root.requestIp (request_of [("cf-connecting-ip", "1.1.1.1");
                              ("x-forwarded-for", "2.2.2.2, 3.3.3.3")])
  = Normal (js "1.1.1.1") /\
  Part001.ip (request_of [("x-forwarded-for", "1.2.3.4 ,5.6.7.8")]) = js "1.2.3.4 " /\
  trim (js "1.2.3.4 ") = js "1.2.3.4" /\
  js "1.2.3.4 " <> js "1.2.3.4".
Proof. by vm_compute. Qed.

(** C6 (amended): let [e] be the first comma-separated entry of a
    non-empty [x-forwarded-for] value: what precedes its first comma, or
    the whole value when there is none. In [root.tsx], when
    [cf-connecting-ip] is absent or empty and [e] is not empty after
    trimming, the resolved address is [e] trimmed of the white space at
    its ends. In [part_001], when [e] is not empty and has no white space
    at its ends, the resolved address is [e]. *)
Theorem forwarded_chain_first_entry request v :
  get (headers request) "x-forwarded-for" = Some v -> v <> [] ->
  exists e rest,
    split comma v = e :: rest /\ (comma ∉ e) /\
    (v = e \/ exists t, v = e ++ comma :: t) /\
    (truthy (get (headers request) "cf-connecting-ip") = false ->
     trim e <> [] -> Root.requestIp request = Normal (trim e)) /\
    (e <> [] -> trim e = e -> Part001.ip request = e).
Proof.
  intros Hxff Hne.
  destruct (split_first comma v) as (e & rest & Hsplit & Hnotin & Hshape).
  exists e, rest. split_and!; try done.
  - intros Hcf Htrim.
    rewrite Root_requestIp_total, (or_else_falsy _ _ Hcf), Hxff. simpl.
    rewrite Hsplit. simpl.
    rewrite or_else_truthy by done. by rewrite or_literal_truthy.
  - intros He _. unfold Part001.ip. rewrite Hxff. simpl. rewrite Hsplit. simpl.
    rewrite or_else_truthy by done. by rewrite or_literal_truthy.
Qed.

Lemma forwarded_chain_first_entry_witness :
  Root.requestIp (request_of [("x-forwarded-for", "1.2.3.4 , 5.6.7.8")])
  = Normal (js "1.2.3.4") /\
  Part001.ip (request_of [("x-forwarded-for", "1.2.3.4, 5.6.7.8")]) = js "1.2.3.4".
Proof.
  split.
  - destruct (forwarded_chain_first_entry
                (request_of [("x-forwarded-for", "1.2.3.4 , 5.6.7.8")])
                (js "1.2.3.4 , 5.6.7.8"))
      as (e & rest & Hsplit & _ & _ & HRoot & _); [reflexivity|discriminate|].
    injection Hsplit as <- _. apply HRoot; [reflexivity|discriminate].
  - destruct (forwarded_chain_first_entry
                (request_of [("x-forwarded-for", "1.2.3.4, 5.6.7.8")])
                (js "1.2.3.4, 5.6.7.8"))
      as (e & rest & Hsplit & _ & _ & _ & H001); [reflexivity|discriminate|].
    injection Hsplit as <- _. apply H001; [discriminate|reflexivity].
Defined.

(** C7: resolution in [root.tsx] and in [part_000] completes normally on
    every request, with a non-empty address; and when [cf-connecting-ip],
    [x-forwarded-for] and [x-real-ip] are each absent or empty, that
    address is [127.0.0.1]. *)
Theorem resolution_total_with_fallback request :
  (exists ip, Root.requestIp request = Normal ip /\ ip <> []) /\
  (exists ip, Part000.requestIp request = Normal ip /\ ip <> []) /\
  (truthy (get (headers request) "cf-connecting-ip") = false ->
   truthy (get (headers request) "x-forwarded-for") = false ->
   truthy (get (headers request) "x-real-ip") = false ->
   Root.requestIp request = Normal loopback /\
   Part000.requestIp request = Normal loopback).
Proof.
  split_and!.
  - eexists. split; [apply Root_requestIp_total|by apply or_literal_nonempty].
  - eexists. split; [apply Part000_requestIp_total|by apply or_literal_nonempty].
  - intros Hcf Hxff Hxri.
    rewrite Root_requestIp_total, Part000_requestIp_total.
    cut (forall A B : Prop, A -> (A -> B) -> A /\ B); [|tauto].
    intros Hcut. apply Hcut; [|by intros ->].
    rewrite (or_else_falsy _ _ Hcf).
    apply truthy_false in Hxff as [->| ->]; simpl;
      rewrite ?or_else_falsy by done; by rewrite or_literal_falsy.
Qed.

Lemma resolution_total_with_fallback_witness :
  Root.requestIp (request_of [("x-forwarded-for", ""); ("user-agent", "curl/8")])
  = Normal loopback /\
  Part000.requestIp (request_of [("x-forwarded-for", ""); ("user-agent", "curl/8")])
  = Normal loopback.
Proof.
  apply (resolution_total_with_fallback
           (request_of [("x-forwarded-for", ""); ("user-agent", "curl/8")]));
    reflexivity.
Defined.

(** The loaders of [root.tsx] and [part_000] never end in a [TypeError]. *)
Lemma loaders_raise_no_TypeError request context :
  Root.loader request context <> Abrupt TypeError /\
  Part000.loader request context <> Abrupt TypeError /\
  Part001.loader request context <> Abrupt TypeError.
Proof.
  split_and!.
  - rewrite (Root_loader_resolved _ _ _ (Root_requestIp_total request)).
    cbv zeta. by destruct (_ && _).
  - rewrite (Part000_loader_resolved _ _ _ (Part000_requestIp_total request)).
    by destruct (negb _).
  - unfold Part001.loader. by destruct (_ && _).
Qed.

(** ** The success payload *)

(** C8, as stated, fails on [part_001]: its success payload is
    [{ ok: true }], with no [ip] field. *)
Lemma part001_payload_has_no_ip :
  Part001.loader (request_of [("x-forwarded-for", "89.76.169.41")])
    (context_of (Some "89.76.169.41"))
  = Normal {| status := 200; body := [("ok", JBool true)] |} /\
  Part001.ip (request_of [("x-forwarded-for", "89.76.169.41")]) = js "89.76.169.41".
Proof. by vm_compute. Qed.

(** C8 (amended): when the loader of [root.tsx] returns, and when the
    loader of [part_000] returns a response of status 200, the response
    is [{ ok: true, ip }] with status 200, where [ip] is the address the
    resolution produced for that request; the loader of [part_001]
    returns [{ ok: true }] and no address. *)
Theorem success_payload request context r :
  (Root.loader request context = Normal r ->
   exists ip, Root.requestIp request = Normal ip /\
     r = {| status := 200; body := [("ok", JBool true); ("ip", JString ip)] |}) /\
  (Part000.loader request context = Normal r -> status r = 200 ->
   exists ip, Part000.requestIp request = Normal ip /\
     r = {| status := 200; body := [("ok", JBool true); ("ip", JString ip)] |}) /\
  (Part001.loader request context = Normal r ->
   r = {| status := 200; body := [("ok", JBool true)] |}).
Proof.
  pose proof (Root_requestIp_total request) as Hip.
  pose proof (Part000_requestIp_total request) as Hip0.
  split_and!.
  - rewrite (Root_loader_resolved _ _ _ Hip). cbv zeta.
    destruct (_ && _); [done|]. intros [= <-]. eauto.
  - rewrite (Part000_loader_resolved _ _ _ Hip0).
    destruct (negb _); intros [= <-]; [done|]. eauto.
  - unfold Part001.loader. destruct (_ && _); [done|]. by intros [= <-].
Qed.

Lemma success_payload_witness :
  exists ip,
    Root.requestIp (request_of [("cf-connecting-ip", "89.76.169.41")]) = Normal ip /\
    json [("ok", JBool true); ("ip", JString (js "89.76.169.41"))] None =
    {| status := 200; body := [("ok", JBool true); ("ip", JString ip)] |}.
Proof.
  destruct (success_payload (request_of [("cf-connecting-ip", "89.76.169.41")])
              (context_of (Some "89.76.169.41"))
              (json [("ok", JBool true); ("ip", JString (js "89.76.169.41"))] None))
    as (HRoot & _ & _).
  apply HRoot. reflexivity.
Defined.

(** ** Purity *)

(** C9: the outcome of each loader is a function of the resolved address
    and of the configured allow-list value alone: two requests that
    resolve to the same address, under the same [ALLOWED_IP], get the same
    completion, whatever else their headers hold. In particular the same
    request under the same configuration always gets the same outcome. *)
Theorem decision_depends_on_address_and_config request1 request2 context1 context2 :
  ALLOWED_IP (env context1) = ALLOWED_IP (env context2) ->
  (Root.requestIp request1 = Root.requestIp request2 ->
   Root.loader request1 context1 = Root.loader request2 context2) /\
  (Part000.requestIp request1 = Part000.requestIp request2 ->
   Part000.loader request1 context1 = Part000.loader request2 context2) /\
  (Part001.ip request1 = Part001.ip request2 ->
   Part001.loader request1 context1 = Part001.loader request2 context2).
Proof.
  intros Hcfg. split_and!; intros Hip.
  - unfold Root.loader. by rewrite Hip, Hcfg.
  - unfold Part000.loader. by rewrite Hip.
  - unfold Part001.loader. by rewrite Hip, Hcfg.
Qed.

Lemma decision_depends_on_address_and_config_witness :
  Root.loader (request_of [("x-forwarded-for", "1.2.3.4, 5.6.7.8")])
    (context_of (Some "89.76.169.41")) =
  Root.loader {| method := js "POST"; url := js "/api/chat";
                 headers := {["x-real-ip" := js "1.2.3.4"]} |}
    (context_of (Some "89.76.169.41")).
Proof.
  apply (decision_depends_on_address_and_config
           (request_of [("x-forwarded-for", "1.2.3.4, 5.6.7.8")])
           {| method := js "POST"; url := js "/api/chat";
              headers := {["x-real-ip" := js "1.2.3.4"]} |}
           (context_of (Some "89.76.169.41"))
           (context_of (Some "89.76.169.41")));
    reflexivity.
Defined.

(** ** The [localhost] bypass of [root.tsx] *)

(** C10: in [root.tsx] a request whose resolved address is the string
    [localhost] is allowed whatever the configuration is; and such an
    address is what a request with no (or an empty) [cf-connecting-ip] and
    the header [x-forwarded-for: localhost] resolves to. *)
Theorem localhost_bypass request context :
  (Root.requestIp request = Normal localhost ->
   Root.loader request context =
   Normal (json [("ok", JBool true); ("ip", JString localhost)] None)) /\
  (truthy (get (headers request) "cf-connecting-ip") = false ->
   get (headers request) "x-forwarded-for" = Some localhost ->
   Root.requestIp request = Normal localhost /\
   decision (Root.loader request context) = Some Allowed).
Proof.
  assert (Hallow : Root.requestIp request = Normal localhost ->
    Root.loader request context =
    Normal (json [("ok", JBool true); ("ip", JString localhost)] None)).
  { intros Hip. rewrite (Root_loader_resolved _ _ _ Hip). cbv zeta.
    assert (Root.isAllowedIp localhost (default [] (ALLOWED_IP (env context))) = true)
      as -> by (apply Root_isAllowedIp_spec; by right; left).
    by rewrite andb_false_r. }
  split; [exact Hallow|].
  intros Hcf Hxff.
  assert (Hip : Root.requestIp request = Normal localhost).
  { rewrite Root_requestIp_total, (or_else_falsy _ _ Hcf), Hxff. done. }
  split; [exact Hip|]. by rewrite (Hallow Hip).
Qed.

Lemma localhost_bypass_witness :
  Root.loader (request_of [("x-forwarded-for", "localhost")])
    (context_of (Some "89.76.169.41")) =
  Normal (json [("ok", JBool true); ("ip", JString localhost)] None) /\
  decision (Root.loader (request_of [("x-forwarded-for", "localhost")])
              (context_of (Some "89.76.169.41"))) = Some Allowed.
Proof.
  destruct (localhost_bypass (request_of [("x-forwarded-for", "localhost")])
              (context_of (Some "89.76.169.41"))) as [Hallow Hreach].
  split; [apply Hallow; reflexivity|apply Hreach; reflexivity].
Defined.

(** * Further properties of the resolution and of the loaders *)

Lemma trim_idemp s : trim (trim s) = trim s.
Proof.
  destruct (trim_spec s) as (l & r & _ & _ & _ & Hhd & Hlast).
  by apply trim_id.
Qed.

Lemma trim_notin c s : c ∉ s -> c ∉ trim s.
Proof.
  destruct (trim_spec s) as (l & r & Hs & _). intros Hnotin Hin.
  apply Hnotin. rewrite Hs. apply elem_of_app. right.
  apply elem_of_app. by left.
Qed.

Lemma first_entry_trimmed_blank : trim <$> first_entry (Some []) = Some [].
Proof. reflexivity. Qed.

(** Resolution in [root.tsx] once the merged forwarded value is known. *)
Lemma Root_requestIp_forwarded request s e rest :
  or_else (get (headers request) "cf-connecting-ip")
          (get (headers request) "x-forwarded-for") = Some s ->
  split comma s = e :: rest ->
  Root.requestIp request =
  Normal (or_literal (or_else (Some (trim e)) (get (headers request) "x-real-ip"))
                     loopback).
Proof.
  intros Hfwd Hsplit. rewrite Root_requestIp_total, Hfwd. simpl.
  by rewrite Hsplit.
Qed.

Lemma Root_loader_bypass request context ip :
  ip = loopback \/ ip = localhost ->
  Root.requestIp request = Normal ip ->
  Root.loader request context =
  Normal (json [("ok", JBool true); ("ip", JString ip)] None).
Proof.
  intros Hby Hip. rewrite (Root_loader_resolved _ _ _ Hip). cbv zeta.
  assert (Root.isAllowedIp ip (default [] (ALLOWED_IP (env context))) = true) as ->
    by (apply Root_isAllowedIp_spec; tauto).
  by rewrite andb_false_r.
Qed.

Lemma Part001_ip_nonempty request : Part001.ip request <> [].
Proof. by apply or_literal_nonempty. Qed.

(** X1: when [cf-connecting-ip] and [x-forwarded-for] are absent or
    empty and [x-real-ip] is not empty, every variant resolves to the
    value of [x-real-ip] as it stands, neither split nor trimmed. *)
Theorem real_ip_fallback request v :
  truthy (get (headers request) "cf-connecting-ip") = false ->
  truthy (get (headers request) "x-forwarded-for") = false ->
  get (headers request) "x-real-ip" = Some v -> v <> [] ->
  Root.requestIp request = Normal v /\
  Part000.requestIp request = Normal v /\
  Part001.ip request = v.
Proof.
  intros Hcf Hxff Hxri Hv. destruct v as [|c v]; [done|].
  rewrite Root_requestIp_total, Part000_requestIp_total. unfold Part001.ip.
  rewrite (or_else_falsy _ _ Hcf), Hxri.
  apply truthy_false in Hxff as [-> | ->]; by split_and!.
Qed.

Lemma real_ip_fallback_witness :
  Root.requestIp (request_of [("x-forwarded-for", ""); ("x-real-ip", "10.0.0.7, 10.0.0.8 ")])
  = Normal (js "10.0.0.7, 10.0.0.8 ").
Proof.
  apply (real_ip_fallback
           (request_of [("x-forwarded-for", ""); ("x-real-ip", "10.0.0.7, 10.0.0.8 ")])
           (js "10.0.0.7, 10.0.0.8 ")); [reflexivity..|discriminate].
Defined.

(** X2: in [root.tsx], a forwarded value whose first comma-separated
    entry is blank (empty, or white space only) counts for nothing: the
    address is resolved from [x-real-ip], else it is [127.0.0.1]; in the
    latter case the request is allowed under every configuration. *)
Theorem blank_first_entry_falls_through request s e rest :
  or_else (get (headers request) "cf-connecting-ip")
          (get (headers request) "x-forwarded-for") = Some s ->
  split comma s = e :: rest -> trim e = [] ->
  Root.requestIp request =
  Normal (or_literal (get (headers request) "x-real-ip") loopback) /\
  (truthy (get (headers request) "x-real-ip") = false ->
   forall context,
     Root.loader request context =
     Normal (json [("ok", JBool true); ("ip", JString loopback)] None)).
Proof.
  intros Hfwd Hsplit Hblank.
  assert (Hip : Root.requestIp request =
                Normal (or_literal (get (headers request) "x-real-ip") loopback)).
  { rewrite (Root_requestIp_forwarded _ _ _ _ Hfwd Hsplit), Hblank.
    by rewrite or_else_falsy. }
  split; [exact Hip|].
  intros Hxri context. rewrite (or_literal_falsy _ _ Hxri) in Hip.
  apply Root_loader_bypass; [by left|exact Hip].
Qed.

Lemma blank_first_entry_falls_through_witness :
  Root.loader (request_of [("x-forwarded-for", ",1.2.3.4")])
    (context_of (Some "89.76.169.41")) =
  Normal (json [("ok", JBool true); ("ip", JString loopback)] None).
Proof.
  destruct (blank_first_entry_falls_through
              (request_of [("x-forwarded-for", ",1.2.3.4")])
              (js ",1.2.3.4") [] [js "1.2.3.4"]) as [_ Hallow];
    [reflexivity..|].
  apply Hallow. reflexivity.
Defined.

(** X3: the address [root.tsx] resolves is the value of [x-real-ip], or
    [127.0.0.1], or a non-empty string that holds no comma and neither
    starts nor ends with white space. *)
Theorem resolved_address_shape request ip :
  Root.requestIp request = Normal ip ->
  get (headers request) "x-real-ip" = Some ip \/
  ip = loopback \/
  (ip <> [] /\ (comma ∉ ip) /\ trim ip = ip).
Proof.
  assert (Hrest : forall v, or_literal v loopback = ip ->
            v = Some ip \/ ip = loopback).
  { intros [[|c v]|] <-; simpl; tauto. }
  destruct (or_else (get (headers request) "cf-connecting-ip")
              (get (headers request) "x-forwarded-for")) as [s|] eqn:Hfwd.
  - destruct (split_first comma s) as (e & rest & Hsplit & Hnotin & _).
    rewrite (Root_requestIp_forwarded _ _ _ _ Hfwd Hsplit). intros [= Hip].
    destruct (trim e) as [|c t] eqn:Htrim.
    + rewrite or_else_falsy in Hip by done. destruct (Hrest _ Hip); tauto.
    + rewrite or_else_truthy, or_literal_truthy in Hip by done. subst ip.
      right; right. rewrite <- Htrim.
      split_and!; [by rewrite Htrim|by apply trim_notin|apply trim_idemp].
  - rewrite Root_requestIp_total, Hfwd. simpl. intros [= Hip].
    rewrite or_else_falsy in Hip by done. destruct (Hrest _ Hip); tauto.
Qed.

Lemma resolved_address_shape_witness :
  get (headers (request_of [("cf-connecting-ip", " 1.1.1.1 ,3.3.3.3")])) "x-real-ip"
  = Some (js "1.1.1.1") \/
  js "1.1.1.1" = loopback \/
  (js "1.1.1.1" <> [] /\ (comma ∉ js "1.1.1.1") /\ trim (js "1.1.1.1") = js "1.1.1.1").
Proof.
  apply (resolved_address_shape
           (request_of [("cf-connecting-ip", " 1.1.1.1 ,3.3.3.3")]) (js "1.1.1.1")).
  reflexivity.
Defined.

(** X4: on a request with no (or an empty) [cf-connecting-ip] whose
    [x-forwarded-for], if any, has a first entry without white space at
    its ends, [root.tsx] and [part_001] resolve the same address. *)
Theorem variants_resolve_alike request :
  truthy (get (headers request) "cf-connecting-ip") = false ->
  (forall v e rest, get (headers request) "x-forwarded-for" = Some v ->
     split comma v = e :: rest -> trim e = e) ->
  Root.requestIp request = Normal (Part001.ip request).
Proof.
  intros Hcf Hclean. rewrite Root_requestIp_total, (or_else_falsy _ _ Hcf).
  unfold Part001.ip.
  destruct (get (headers request) "x-forwarded-for") as [v|] eqn:Hxff; [|done].
  destruct (first_entry_Some v) as (e & rest & Hsplit & ->). simpl.
  by rewrite (Hclean v e rest eq_refl Hsplit).
Qed.

Lemma variants_resolve_alike_witness :
  Root.requestIp (request_of [("x-forwarded-for", "1.2.3.4, 5.6.7.8")])
  = Normal (Part001.ip (request_of [("x-forwarded-for", "1.2.3.4, 5.6.7.8")])).
Proof.
  apply (variants_resolve_alike (request_of [("x-forwarded-for", "1.2.3.4, 5.6.7.8")]));
    [reflexivity|].
  intros v e rest Hv Hsplit. vm_compute in Hv. injection Hv as <-.
  vm_compute in Hsplit. injection Hsplit as <- _. reflexivity.
Defined.

(** X5: the complete decision of [root.tsx]: a request is denied exactly
    when an allow-list value is configured, non-empty, and the resolved
    address is neither that value nor [127.0.0.1] nor [localhost]; every
    other request is allowed. *)
Theorem root_decision_table request context ip :
  Root.requestIp request = Normal ip ->
  (decision (Root.loader request context) = Some Denied <->
   exists a, ALLOWED_IP (env context) = Some a /\ a <> [] /\
     ip <> a /\ ip <> loopback /\ ip <> localhost) /\
  (decision (Root.loader request context) = Some Allowed <->
   truthy (ALLOWED_IP (env context)) = false \/
   ip = loopback \/ ip = localhost \/ ALLOWED_IP (env context) = Some ip).
Proof.
  intros Hip. rewrite (Root_loader_resolved _ _ _ Hip). cbv zeta.
  destruct (ALLOWED_IP (env context)) as [[|c a]|] eqn:Hcfg; simpl.
  - split; split; try done; [intros (a & [= <-] & Hne & _); done|by left].
  - destruct (Root.isAllowedIp ip (c :: a)) eqn:Hallowed; simpl.
    + apply Root_isAllowedIp_spec in Hallowed.
      split; split; try done.
      * intros (a' & [= <-] & _ & H1 & H2 & H3). tauto.
      * intros _. right. destruct Hallowed as [?|[?|?]]; subst; tauto.
    + apply Root_isAllowedIp_false in Hallowed as (H1 & H2 & H3).
      split; split; try done.
      * intros _. exists (c :: a). by split_and!.
      * intros [?|[?|[?|[= ?]]]]; done.
  - split; split; try done; [intros (a & [=] & _)|by left].
Qed.

Lemma root_decision_table_witness :
  decision (Root.loader (request_of [("x-real-ip", "10.1.2.3")])
              (context_of (Some "10.0.0.0/8"))) = Some Denied.
Proof.
  apply (root_decision_table (request_of [("x-real-ip", "10.1.2.3")])
           (context_of (Some "10.0.0.0/8")) (js "10.1.2.3")); [reflexivity|].
  exists (js "10.0.0.0/8"). split_and!; [reflexivity|discriminate..].
Defined.

(** X6: the complete decision of [part_000]: a request is allowed
    exactly when its resolved address is the hard-coded [89.76.169.41],
    and denied otherwise; [ALLOWED_IP] has no part in it. *)
Theorem part000_decision_table request context :
  (decision (Part000.loader request context) = Some Allowed <->
   Part000.requestIp request = Normal (js "89.76.169.41")) /\
  (decision (Part000.loader request context) = Some Denied <->
   Part000.requestIp request <> Normal (js "89.76.169.41")).
Proof.
  pose proof (Part000_requestIp_total request) as Hip.
  rewrite (Part000_loader_resolved _ _ _ Hip), Hip.
  destruct (Part000.isAllowedIp _) eqn:Hallowed; simpl.
  - apply Part000_isAllowedIp_spec in Hallowed. rewrite Hallowed.
    split; split; done.
  - apply strict_eq_false in Hallowed.
    split; split; try done; [intros [= ?]; done|].
    intros _ [= ?]; done.
Qed.

(** X7: the complete decision of [part_001]: a request is allowed
    exactly when its resolved address is [127.0.0.1] or is the value of
    [ALLOWED_IP], and denied otherwise. *)
Theorem part001_decision_table request context :
  (decision (Part001.loader request context) = Some Allowed <->
   Part001.ip request = loopback \/
   ALLOWED_IP (env context) = Some (Part001.ip request)) /\
  (decision (Part001.loader request context) = Some Denied <->
   Part001.ip request <> loopback /\
   ALLOWED_IP (env context) <> Some (Part001.ip request)).
Proof.
  pose proof (Part001_ip_nonempty request) as Hne.
  destruct (decide (Part001.ip request = loopback)) as [Hlo|Hlo].
  { rewrite Part001_loader_allowed by (by right). simpl.
    split; split; try done; [by left|tauto]. }
  destruct (decide (Part001.ip request =
                    or_literal (ALLOWED_IP (env context)) loopback)) as [Heq|Hneq].
  - rewrite Part001_loader_allowed by (by left). simpl.
    assert (ALLOWED_IP (env context) = Some (Part001.ip request)) as Hcfg.
    { destruct (ALLOWED_IP (env context)) as [[|c a]|]; simpl in Heq;
        [done|by rewrite Heq|done]. }
    split; split; try done; [by right|tauto].
  - rewrite Part001_loader_denied by done. simpl.
    assert (ALLOWED_IP (env context) <> Some (Part001.ip request)) as Hcfg.
    { intros Hcfg. apply Hneq. rewrite Hcfg. by rewrite or_literal_truthy. }
    split; split; try done. tauto.
Qed.

Lemma part000_decision_table_witness :
  decision (Part000.loader (request_of [("x-real-ip", "89.76.169.41")])
              (context_of (Some "1.2.3.4"))) = Some Allowed.
Proof.
  apply (part000_decision_table (request_of [("x-real-ip", "89.76.169.41")])
           (context_of (Some "1.2.3.4"))).
  reflexivity.
Defined.

Lemma part001_decision_table_witness :
  decision (Part001.loader (request_of [("x-forwarded-for", "1.2.3.4 ,5.6.7.8")])
              (context_of (Some "1.2.3.4"))) = Some Denied.
Proof.
  apply (part001_decision_table (request_of [("x-forwarded-for", "1.2.3.4 ,5.6.7.8")])
           (context_of (Some "1.2.3.4"))).
  split; vm_compute; discriminate.
Defined.

(** X8: [root.tsx] never denies what [part_001] allows: for a request
    that both resolve to the same address, under the same configuration,
    an allow of [part_001] is an allow of [root.tsx]. *)
Theorem root_allows_what_part001_allows request context :
  Root.requestIp request = Normal (Part001.ip request) ->
  decision (Part001.loader request context) = Some Allowed ->
  decision (Root.loader request context) = Some Allowed.
Proof.
  intros Hip H001. rewrite (Root_loader_resolved _ _ _ Hip). cbv zeta.
  destruct (decide (Part001.ip request = loopback)) as [Hlo|Hlo].
  { assert (Root.isAllowedIp (Part001.ip request)
              (default [] (ALLOWED_IP (env context))) = true) as ->
      by (apply Root_isAllowedIp_spec; by left).
    by rewrite andb_false_r. }
  destruct (decide (Part001.ip request =
                    or_literal (ALLOWED_IP (env context)) loopback)) as [Heq|Hneq].
  - destruct (ALLOWED_IP (env context)) as [[|c a]|]; simpl in *; try done.
    assert (Root.isAllowedIp (Part001.ip request) (c :: a) = true) as ->
      by (apply Root_isAllowedIp_spec; by right; right).
    done.
  - by rewrite Part001_loader_denied in H001.
Qed.

Lemma root_allows_what_part001_allows_witness :
  decision (Root.loader (request_of [("x-forwarded-for", "89.76.169.41, 10.0.0.1")])
              (context_of (Some "89.76.169.41"))) = Some Allowed.
Proof.
  apply (root_allows_what_part001_allows
           (request_of [("x-forwarded-for", "89.76.169.41, 10.0.0.1")])
           (context_of (Some "89.76.169.41"))); reflexivity.
Defined.

(** X9: how each variant signals its decision. [root.tsx] and [part_001]
    return only responses of status 200 and throw only responses of
    status 403; [part_000] never throws: it returns a response of status
    200 or 403. *)
Theorem denial_signalling request context :
  (forall r, Root.loader request context = Normal r -> status r = 200) /\
  (forall e, Root.loader request context = Abrupt e ->
     exists r, e = Thrown r /\ status r = 403) /\
  (forall r, Part001.loader request context = Normal r -> status r = 200) /\
  (forall e, Part001.loader request context = Abrupt e ->
     exists r, e = Thrown r /\ status r = 403) /\
  (exists r, Part000.loader request context = Normal r /\
     (status r = 200 \/ status r = 403)).
Proof.
  rewrite (Root_loader_resolved _ _ _ (Root_requestIp_total request)).
  rewrite (Part000_loader_resolved _ _ _ (Part000_requestIp_total request)).
  unfold Part001.loader. cbv zeta.
  split_and!.
  - intros r. destruct (_ && _); [done|]. by intros [= <-].
  - intros e. destruct (_ && _); [|done]. intros [= <-]. by eexists.
  - intros r. destruct (_ && _); [done|]. by intros [= <-].
  - intros e. destruct (_ && _); [|done]. intros [= <-]. by eexists.
  - destruct (negb _); eexists; (split; [done|]); [by right|by left].
Qed.

(** X10: in [root.tsx], when [cf-connecting-ip] is absent or empty, the
    [x-forwarded-for] header decides: a request carrying there the
    configured allow-list value (a non-empty string without comma or
    white space at its ends) resolves to it and is allowed, whatever its
    other headers are. *)
Theorem forwarded_header_sets_address request context a :
  truthy (get (headers request) "cf-connecting-ip") = false ->
  a <> [] -> comma ∉ a -> trim a = a ->
  ALLOWED_IP (env context) = Some a ->
  Root.requestIp (set_header "x-forwarded-for" (Some a) request) = Normal a /\
  Root.loader (set_header "x-forwarded-for" (Some a) request) context =
  Normal (json [("ok", JBool true); ("ip", JString a)] None).
Proof.
  intros Hcf Hne Hnocomma Htrim Hcfg.
  assert (Hip : Root.requestIp (set_header "x-forwarded-for" (Some a) request)
                = Normal a).
  { rewrite (Root_requestIp_forwarded _ a a []).
    - rewrite Htrim, or_else_truthy by done. by rewrite or_literal_truthy.
    - rewrite (get_set_header_ne _ "cf-connecting-ip") by done.
      rewrite get_set_header_eq. by rewrite or_else_falsy.
    - by apply split_no_sep. }
  split; [exact Hip|].
  rewrite (Root_loader_resolved _ _ _ Hip). cbv zeta. rewrite Hcfg.
  assert (Root.isAllowedIp a (default [] (Some a)) = true) as ->
    by (apply Root_isAllowedIp_spec; by right; right).
  by rewrite andb_false_r.
Qed.

Lemma forwarded_header_sets_address_witness :
  Root.loader
    (set_header "x-forwarded-for" (Some (js "89.76.169.41"))
       (request_of [("x-real-ip", "203.0.113.9"); ("x-forwarded-for", "203.0.113.9")]))
    (context_of (Some "89.76.169.41")) =
  Normal (json [("ok", JBool true); ("ip", JString (js "89.76.169.41"))] None).
Proof.
  apply (forwarded_header_sets_address
           (request_of [("x-real-ip", "203.0.113.9"); ("x-forwarded-for", "203.0.113.9")])
           (context_of (Some "89.76.169.41")) (js "89.76.169.41"));
    try reflexivity; [discriminate|].
  vm_compute. intros H. repeat (apply elem_of_cons in H as [H|H]; [discriminate|]).
  by apply elem_of_nil in H.
Defined.

(** X11: in [root.tsx], when the first entry of [cf-connecting-ip] is
    not blank, the outcome of the loader does not depend on
    [x-forwarded-for] nor on [x-real-ip]: setting or removing them
    changes nothing. *)
Theorem edge_header_shields request c e rest :
  get (headers request) "cf-connecting-ip" = Some c ->
  split comma c = e :: rest -> trim e <> [] ->
  forall v w context,
    Root.loader (set_header "x-real-ip" w (set_header "x-forwarded-for" v request))
      context
    = Root.loader request context.
Proof.
  intros Hcf Hsplit Hne v w context.
  assert (Hc : c <> []) by (intros ->; by injection Hsplit as <- _).
  assert (Hip : forall request', get (headers request') "cf-connecting-ip" = Some c ->
                  Root.requestIp request' = Normal (trim e)).
  { intros request' Hcf'.
    rewrite (Root_requestIp_forwarded request' c e rest);
      [|by rewrite Hcf', or_else_truthy|done].
    rewrite or_else_truthy by done. by rewrite or_literal_truthy. }
  rewrite (Root_loader_resolved _ _ (trim e)), (Root_loader_resolved request _ (trim e));
    [done|by apply Hip|].
  apply Hip. by rewrite !get_set_header_ne.
Qed.

Lemma edge_header_shields_witness :
  Root.loader
    (set_header "x-real-ip" (Some loopback)
       (set_header "x-forwarded-for" (Some (js "89.76.169.41"))
          (request_of [("cf-connecting-ip", "203.0.113.9")])))
    (context_of (Some "89.76.169.41"))
  = Root.loader (request_of [("cf-connecting-ip", "203.0.113.9")])
      (context_of (Some "89.76.169.41")).
Proof.
  apply (edge_header_shields (request_of [("cf-connecting-ip", "203.0.113.9")])
           (js "203.0.113.9") (js "203.0.113.9") []); [reflexivity..|discriminate].
Defined.

(** * The document shell *)

(** X12: when the document has an [html] element, the inline theme
    script gives it a non-empty [data-theme]: the stored [bolt_theme] as
    it stands when that is a non-empty string, else [dark] or [light] by
    the media query; the other attributes and the local storage are left
    as they were. *)
Theorem theme_script_attribute b attrs :
  html b = Some attrs ->
  exists theme attrs',
    html (setTutorialKitTheme b) = Some attrs' /\
    attrs' !! "data-theme" = Some theme /\ theme <> [] /\
    (truthy (getItem (localStorage b) "bolt_theme") = true ->
     getItem (localStorage b) "bolt_theme" = Some theme) /\
    (truthy (getItem (localStorage b) "bolt_theme") = false ->
     theme = if prefers_dark b then js "dark" else js "light") /\
    (forall name, name <> "data-theme" -> attrs' !! name = attrs !! name) /\
    localStorage (setTutorialKitTheme b) = localStorage b.
Proof.
  intros Hhtml. unfold setTutorialKitTheme, setAttribute. simpl. rewrite Hhtml.
  simpl. eexists _, _. split; [done|]. rewrite lookup_insert_eq.
  split; [done|].
  destruct (getItem (localStorage b) "bolt_theme") as [[|c t]|]; simpl;
    (split_and!; [..|intros name Hname; by rewrite lookup_insert_ne|done]);
    try done; by destruct (prefers_dark b).
Qed.

Lemma theme_script_attribute_witness :
  exists theme attrs',
    html (setTutorialKitTheme
            {| localStorage := {["bolt_theme" := js ""]}; prefers_dark := true;
               html := Some {["lang" := js "en"]} |}) = Some attrs' /\
    attrs' !! "data-theme" = Some theme /\ theme = js "dark" /\
    attrs' !! "lang" = Some (js "en").
Proof.
  destruct (theme_script_attribute
              {| localStorage := {["bolt_theme" := js ""]}; prefers_dark := true;
                 html := Some {["lang" := js "en"]} |} {["lang" := js "en"]})
    as (theme & attrs' & Hhtml & Hattr & _ & _ & Hmedia & Hother & _);
    [reflexivity|].
  exists theme, attrs'. split_and!; [done|done|by apply Hmedia|].
  by rewrite Hother.
Defined.

(** X13: running the inline theme script twice is the same as running it
    once, and the effect of [Layout] overrides it: after that effect the
    browser is as if the script had not run. *)
Theorem theme_script_idempotent b theme :
  setTutorialKitTheme (setTutorialKitTheme b) = setTutorialKitTheme b /\
  Layout_effect theme (setTutorialKitTheme b) = Layout_effect theme b.
Proof.
  unfold Layout_effect, setTutorialKitTheme, setAttribute. simpl.
  split; f_equal; destruct (html b) as [attrs|]; simpl; try done;
    by rewrite insert_insert_eq.
Qed.

(** X14: in [root.tsx], whenever the loader returns, the [clientIp] that
    [App] passes to the log with the loader data is the address resolved
    for the request. *)
Theorem app_logs_resolved_address request context r theme navigator now :
  Root.loader request context = Normal r ->
  exists ip, Root.requestIp request = Normal ip /\
    App_effect theme navigator now (body r) =
    (js "Application initialized",
     [("theme", Some (JString theme));
      ("platform", Some (JString (platform navigator)));
      ("userAgent", Some (JString (userAgent navigator)));
      ("timestamp", Some (JString now));
      ("clientIp", Some (JString ip))]).
Proof.
  pose proof (Root_requestIp_total request) as Hip.
  rewrite (Root_loader_resolved _ _ _ Hip). cbv zeta.
  destruct (_ && _); [done|]. intros [= <-]. eexists. split; [exact Hip|done].
Qed.

Lemma app_logs_resolved_address_witness :
  exists ip,
    Root.requestIp (request_of [("x-forwarded-for", "203.0.113.9")]) = Normal ip /\
    App_effect (js "dark") {| platform := js "Linux"; userAgent := js "curl/8" |}
      (js "2024-11-03T10:00:00.000Z")
      [("ok", JBool true); ("ip", JString (js "203.0.113.9"))] =
    (js "Application initialized",
     [("theme", Some (JString (js "dark")));
      ("platform", Some (JString (js "Linux")));
      ("userAgent", Some (JString (js "curl/8")));
      ("timestamp", Some (JString (js "2024-11-03T10:00:00.000Z")));
      ("clientIp", Some (JString ip))]).
Proof.
  apply (app_logs_resolved_address (request_of [("x-forwarded-for", "203.0.113.9")])
           (context_of None)
           (json [("ok", JBool true); ("ip", JString (js "203.0.113.9"))] None)
           (js "dark") {| platform := js "Linux"; userAgent := js "curl/8" |}
           (js "2024-11-03T10:00:00.000Z")).
  reflexivity.
Defined.

(** X15: in [part_000] the denial is returned as loader data: it has
    status 403, no [ip] property, so that [App] would log an undefined
    [clientIp] with it, and it holds the resolved address under
    [requestIp]. *)
Theorem part000_denial_is_loader_data request context r theme navigator now :
  Part000.loader request context = Normal r -> status r = 403 ->
  exists ip, Part000.requestIp request = Normal ip /\
    ip <> js "89.76.169.41" /\
    prop "requestIp" (body r) = Some (JString ip) /\
    prop "error" (body r) = Some (JString access_denied) /\
    prop "ip" (body r) = None /\
    snd (App_effect theme navigator now (body r)) !! 4%nat = Some ("clientIp", None).
Proof.
  pose proof (Part000_requestIp_total request) as Hip.
  rewrite (Part000_loader_resolved _ _ _ Hip).
  destruct (Part000.isAllowedIp _) eqn:Hallowed; simpl; intros [= <-]; [done|].
  intros _. eexists. split; [exact Hip|].
  apply strict_eq_false in Hallowed. by split_and!.
Qed.

Lemma part000_denial_is_loader_data_witness :
  exists ip, Part000.requestIp (request_of []) = Normal ip /\
    ip <> js "89.76.169.41" /\
    prop "requestIp"
      (body (json [("error", JString access_denied); ("requestIp", JString loopback)]
               (Some 403))) = Some (JString ip).
Proof.
  destruct (part000_denial_is_loader_data (request_of []) (context_of None)
              (json [("error", JString access_denied); ("requestIp", JString loopback)]
                 (Some 403))
              (js "dark") {| platform := js "Linux"; userAgent := js "curl/8" |}
              (js "2024-11-03T10:00:00.000Z"))
    as (ip & Hip & Hne & Hreq & _); [reflexivity..|].
  exists ip. by split_and!.
Defined.
